(** * graphima: the chart example [docs/main/example-log.js]

    The example fetches [overview.json], decodes it, builds the chart
    description [params] out of the decoded columns and hands it to
    [Graphima.createMain(params, CONFIG)].

    The embedding keeps what the script does to JavaScript objects:
    every array is an object in a store, [slice] and [map] allocate a new
    array, numbers are IEEE-754 doubles, reading [slice] on [undefined]
    throws a [TypeError], and the calls that leave the script ([fetch],
    [response.json], [Graphima.createMain]) are recorded in order.  The
    decoded document is taken as its data contract types it: an object of
    display names and an array of columns of JSON scalars.
    [Graphima.createMain] is taken to return.

    The charting engine itself is not in the sources; its Scale is
    modelled from the specification in [Module Scale]. *)

From Stdlib Require Import Floats.PrimFloat QArith.QArith QArith.Qminmax QArith.Qabs Lqa.
From stdpp Require Import gmap strings list fin_maps.

(** ** JavaScript values held by the columns *)

(** A cell of a column of the decoded document: a JSON scalar.  The first
    cell of a column is its header, the others are samples. *)
Inductive cell : Type :=
  | CNull
  | CBool (b : bool)
  | CNum (x : float)
  | CStr (s : string).

(** A property read that finds nothing yields [undefined]; [None] stands
    for it. *)
Definition jsval (A : Type) : Type := option A.

(** ToString, as a template literal applies it to a display name. *)
Definition to_string (v : jsval string) : string :=
  match v with
  | Some s => s
  | None => "undefined"
  end.

(** ** Arrays *)

(** [Array.prototype.slice(start)] with one argument: a negative [start]
    counts from the end, and the result is a new array. *)
Definition slice {A : Type} (start : Z) (l : list A) : list A :=
  let len := Z.of_nat (length l) in
  let k := if (start <? 0)%Z then Z.max (len + start) 0 else Z.min start len in
  drop (Z.to_nat k) l.


(** ** The store *)

(** Identity of an array object. *)
Abbreviation loc := positive.

(** One entry of [dataSets].  [coords] and [values] are references: the
    object literal stores the array objects that [slice] and [map]
    returned. *)
Record SeriesSpec : Type := {
  name : jsval string;
  coords : loc;
  values : loc;
}.

(** The object literal [params]. *)
Record ChartSpec : Type := {
  selector : string;
  contentName : string;
  coordType : string;
  valueType : string;
  dataSets : list SeriesSpec;
}.

(** What [response.json()] decodes, as a tree: the input data contract
    (an object of display names, an array of columns of scalars). *)
Record Document : Type := {
  doc_names : gmap string string;
  doc_columns : list (list cell);
}.

(** The object [data] the script holds: its columns are array objects. *)
Record Data : Type := {
  names : gmap string string;
  columns : list loc;
}.

(** What the two [await]s produce. *)
Inductive fetched : Type :=
  | FetchRejected
  | JsonRejected
  | Decoded (doc : Document).

(** Exceptions.  [TypeError i] is the one thrown by reading [slice] on
    [data.columns[i]] when that is [undefined].  [Dangling] is no
    JavaScript exception: it marks a reference to no object, which a run
    never meets ([run_not_dangling]). *)
Inductive exn : Type :=
  | FetchError
  | JsonError
  | TypeError (i : nat)
  | Dangling (l : loc).

Inductive result (A : Type) : Type :=
  | Ok (a : A)
  | Throw (e : exn).
Arguments Ok {A} a.
Arguments Throw {A} e.

(** * The engine's Scale

    Modelled from the spec: the charting engine ([Graphima.createMain] and
    what is behind it) is not among the sources, which hold the example
    only.  The definitions of this module follow the words of the spec
    (component design, Scale), over exact rationals. *)

Module Scale.
Local Open Scope Q_scope.

(** Modelled from the spec: the domain kinds of a scale, dates and
    numbers. *)
Inductive DomainKind : Type := Date | Number.

(** Modelled from the spec: a Scale has [domainMin], [domainMax] in domain
    units and [rangeMin], [rangeMax] in pixels. *)
Record Scale : Type := {
  domainMin : Q;
  domainMax : Q;
  rangeMin : Q;
  rangeMax : Q;
}.

(** Modelled from the spec: building with zero input values fails with
    [EmptyDomain]. *)
Inductive BuildError : Type := EmptyDomain.

(** Modelled from the spec: the true minimum and maximum across all input
    values. *)
Definition minimum (v : Q) (vs : list Q) : Q := fold_right Qmin v vs.
Definition maximum (v : Q) (vs : list Q) : Q := fold_right Qmax v vs.

(** Modelled from the spec: the degenerate-domain policy widens by 1 unit
    for dates, and for numbers by 1% of the magnitude, or by 1 at zero. *)
Definition widening (kind : DomainKind) (m : Q) : Q :=
  match kind with
  | Date => 1
  | Number => if Qeq_bool m 0 then 1 else Qabs m / 100
  end.

(** Modelled from the spec: [build(domainValues, rangePixels)], with the
    symmetric widening when [domainMin == domainMax]. *)
Definition build (kind : DomainKind) (domainValues : list Q) (rangePixels : Q * Q)
    : BuildError + Scale :=
  match domainValues with
  | [] => inl EmptyDomain
  | v :: vs =>
      let lo := minimum v vs in
      let hi := maximum v vs in
      if Qeq_bool lo hi then
        let d := widening kind lo in
        inr {| domainMin := lo - d; domainMax := hi + d;
               rangeMin := fst rangePixels; rangeMax := snd rangePixels |}
      else
        inr {| domainMin := lo; domainMax := hi;
               rangeMin := fst rangePixels; rangeMax := snd rangePixels |}
  end.

(** Modelled from the spec: [toPixel] is a linear interpolation; the span
    of the domain is its only divisor. *)
Definition toPixel (s : Scale) (v : Q) : Q :=
  rangeMin s + (v - domainMin s) * (rangeMax s - rangeMin s) / (domainMax s - domainMin s).

(** All of [vs] equal [c]: the domain is degenerate. *)
Definition all_equal (c : Q) (vs : list Q) : bool := forallb (Qeq_bool c) vs.

End Scale.

(** * The example *)

Section Example.

(** [CONFIG] is a global of the page; the script only passes it on.
    StringToNumber (the numeric value of a string cell) belongs to the
    JavaScript engine. *)
Variable Config : Type.
Variable CONFIG : Config.
Variable string_to_number : string → float.

(** Calls that leave the script, in the order they are made. *)
Inductive call : Type :=
  | CallFetch (url : string)
  | CallJson
  | CallCreateMain (params : ChartSpec) (config : Config).

Record state : Type := {
  heap : gmap loc (list cell);
  calls : list call;
}.

(** Computations: a store and a call log threaded through, and an
    exception or a value out. *)
Definition M (A : Type) : Type := state → result A * state.

#[local] Instance M_ret : MRet M := λ A a σ, (Ok a, σ).
#[local] Instance M_bind : MBind M := λ A B f m σ,
  match m σ with
  | (Ok a, σ') => f a σ'
  | (Throw e, σ') => (Throw e, σ')
  end.

Definition throw {A : Type} (e : exn) : M A := λ σ, (Throw e, σ).

Definition emit (c : call) : M unit :=
  λ σ, (Ok tt, {| heap := heap σ; calls := calls σ ++ [c] |}).

(** A new array object. *)
Definition alloc (arr : list cell) : M loc :=
  λ σ, let l := fresh (dom (heap σ)) in
       (Ok l, {| heap := <[l:=arr]> (heap σ); calls := calls σ |}).

Definition load (l : loc) : M (list cell) :=
  λ σ, match heap σ !! l with
       | Some arr => (Ok arr, σ)
       | None => (Throw (Dangling l), σ)
       end.

(** [a.slice(start)] and [a.map(f)] on an array object [a]. *)
Definition array_slice (start : Z) (l : loc) : M loc :=
  arr ← load l; alloc (slice start arr).

Definition array_map (f : cell → cell) (l : loc) : M loc :=
  arr ← load l; alloc (f <$> arr).

(** ToNumber on a cell. *)
Definition to_number (v : cell) : float :=
  match v with
  | CNull => 0%float
  | CBool true => 1%float
  | CBool false => 0%float
  | CNum x => x
  | CStr s => string_to_number s
  end.

(** The arrow functions [(v) => v * 100.0] and [(v) => v * 1000.0]. *)
Definition times (k : float) (v : cell) : cell := CNum (PrimFloat.mul (to_number v) k).

(** [data.columns[i].slice(1)] *)
Definition column_slice (data : Data) (i : nat) : M loc :=
  match columns data !! i with
  | Some l => array_slice 1 l
  | None => throw (TypeError i)
  end.

(** The object literal, its properties evaluated in source order. *)
Definition build_params (data : Data) : M ChartSpec :=
  let n0 := names data !! "y0" in
  c0 ← column_slice data 0;
  v0 ← column_slice data 1;
  let n1 := to_string (names data !! "y1") +:+ " x 100" in
  c1 ← column_slice data 0;
  t1 ← column_slice data 2;
  v1 ← array_map (times 100) t1;
  let n2 := to_string (names data !! "y1") +:+ " x 1000" in
  c2 ← column_slice data 0;
  t2 ← column_slice data 2;
  v2 ← array_map (times 1000) t2;
  mret {|
    selector := "#chart-2";
    contentName := "New chart";
    coordType := "date";
    valueType := "number";
    dataSets := [
      {| name := n0; coords := c0; values := v0 |};
      {| name := Some n1; coords := c1; values := v1 |};
      {| name := Some n2; coords := c2; values := v2 |}
    ];
  |}.

(** Decoding creates the column arrays. *)
Fixpoint alloc_all (cols : list (list cell)) : M (list loc) :=
  match cols with
  | [] => mret []
  | c :: cols' => l ← alloc c; ls ← alloc_all cols'; mret (l :: ls)
  end.

Definition decode (doc : Document) : M Data :=
  ls ← alloc_all (doc_columns doc);
  mret {| names := doc_names doc; columns := ls |}.

Definition run (net : fetched) : M unit :=
  emit (CallFetch "../../overview.json");;
  match net with
  | FetchRejected => throw FetchError
  | JsonRejected => emit CallJson;; throw JsonError
  | Decoded doc =>
      emit CallJson;;
      data ← decode doc;
      params ← build_params data;
      emit (CallCreateMain params CONFIG)
  end.


(** ** Reading the store *)

(** [data.columns[i]], as the array it denotes in the store. *)
Definition column (data : Data) (σ : state) (i : nat) : option (list cell) :=
  l ← columns data !! i; heap σ !! l.

(** The store after [alloc] returned [l]. *)
Definition alloc_to (σ : state) (l : loc) (arr : list cell) : state :=
  {| heap := <[l:=arr]> (heap σ); calls := calls σ |}.

(** The array objects a chart description refers to. *)
Definition series_arrays (s : SeriesSpec) : list loc := [coords s; values s].
Definition chart_arrays (p : ChartSpec) : list loc := dataSets p ≫= series_arrays.

(** The value of the object literal once its six arrays exist. *)
Definition params_literal (nm : gmap string string) (c0 v0 c1 v1 c2 v2 : loc) : ChartSpec :=
  {| selector := "#chart-2";
     contentName := "New chart";
     coordType := "date";
     valueType := "number";
     dataSets := [
       {| name := nm !! "y0"; coords := c0; values := v0 |};
       {| name := Some (to_string (nm !! "y1") +:+ " x 100"); coords := c1; values := v1 |};
       {| name := Some (to_string (nm !! "y1") +:+ " x 1000"); coords := c2; values := v2 |}
     ] |}.

(** The store with [cs] appended to the call log. *)
Definition logged (σ : state) (cs : list call) : state :=
  {| heap := heap σ; calls := calls σ ++ cs |}.

(** ** The invariants of the data model *)

(** Modelled from the spec: the type tags the engine accepts (data model,
    ChartSpec: coordType is one of date, number, category; valueType is
    number).  The engine is not among the sources. *)
Definition coord_types : list string := ["date"; "number"; "category"].
Definition value_types : list string := ["number"].

Definition array_length (σ : state) (l : loc) : option nat :=
  length <$> heap σ !! l.

(** Every column of [data] is an array of [n] cells. *)
Definition equal_length_columns (data : Data) (σ : state) (n : nat) : Prop :=
  Forall (λ l, array_length σ l = Some n) (columns data).

(** [len(coords) == len(values)] *)
Definition series_invariant (σ : state) (s : SeriesSpec) : Prop :=
  is_Some (array_length σ (coords s))
  ∧ array_length σ (coords s) = array_length σ (values s).

(** ** Structural reading of a chart description

    Two runs never share array objects; what they pass to the engine is
    compared by content. *)

Record SeriesView : Type := {
  view_name : jsval string;
  view_coords : list cell;
  view_values : list cell;
}.

Record ChartView : Type := {
  view_selector : string;
  view_contentName : string;
  view_coordType : string;
  view_valueType : string;
  view_dataSets : list SeriesView;
}.

Definition read_series (h : gmap loc (list cell)) (s : SeriesSpec) : option SeriesView :=
  cs ← h !! coords s;
  vs ← h !! values s;
  Some {| view_name := name s; view_coords := cs; view_values := vs |}.

Definition read_chart (h : gmap loc (list cell)) (p : ChartSpec) : option ChartView :=
  ds ← mapM (read_series h) (dataSets p);
  Some {| view_selector := selector p;
          view_contentName := contentName p;
          view_coordType := coordType p;
          view_valueType := valueType p;
          view_dataSets := ds |}.

(** What [Graphima.createMain] was called with, call by call. *)
Definition created (σ : state) : list (option ChartView * Config) :=
  calls σ ≫= λ c,
    match c with
    | CallCreateMain p cfg => [(read_chart (heap σ) p, cfg)]
    | _ => []
    end.

(** A run starts with whatever objects the page already has and an empty
    call log. *)
Definition start (h : gmap loc (list cell)) : state := {| heap := h; calls := [] |}.

(** ** Allocation only *)

(** [σ'] has every object of [σ], unchanged, and the same call log. *)
Definition extends (σ σ' : state) : Prop :=
  heap σ ⊆ heap σ' ∧ calls σ' = calls σ.

(** [m] changes the store by allocation only, whatever its outcome. *)
Definition allocates {A : Type} (m : M A) : Prop := ∀ σ, extends σ (m σ).2.

(** Whenever [m] returns a reference, it is to an object that did not
    exist before. *)
Definition returns_new (m : M loc) : Prop :=
  ∀ σ l σ', m σ = (Ok l, σ') → l ∉ dom (heap σ).

(** ** Cells as the engine receives them *)

(** The cell is a JavaScript number. *)
Definition is_number (c : cell) : bool :=
  match c with
  | CNum _ => true
  | _ => false
  end.

(** ** A document to run on *)

Definition demo_doc : Document :=
  {| doc_names := {[ "y0" := "Joined"; "y1" := "Left" ]};
     doc_columns := [ [CStr "x"; CNum 1; CNum 2];
                      [CStr "y0"; CNum 10; CNum 20];
                      [CStr "y1"; CNum 0.5; CNum 0.25] ] |}.

(** The same document decoded into a store. *)
Definition demo_data : Data :=
  {| names := doc_names demo_doc; columns := [1; 2; 3]%positive |}.

Definition demo_state : state :=
  {| heap := {[ 1%positive := [CStr "x"; CNum 1; CNum 2];
                2%positive := [CStr "y0"; CNum 10; CNum 20];
                3%positive := [CStr "y1"; CNum 0.5; CNum 0.25] ]};
     calls := [] |}.

(** A document of two columns: no column 2. *)
Definition demo_short_doc : Document :=
  {| doc_names := {[ "y0" := "Joined" ]};
     doc_columns := [ [CStr "x"; CNum 1]; [CStr "y0"; CNum 10] ] |}.

(** The samples of [demo_doc] under other headers, with one more column
    and one more name. *)
Definition demo_doc_relabelled : Document :=
  {| doc_names := {[ "y0" := "Joined"; "y1" := "Left"; "y2" := "Muted" ]};
     doc_columns := [ [CStr "date"; CNum 1; CNum 2];
                      [CNull; CNum 10; CNum 20];
                      [CStr "#2"; CNum 0.5; CNum 0.25];
                      [CStr "y2"; CNum 7; CNum 8] ] |}.

(** * Proofs *)

(** ** Slicing *)

Lemma slice_1 {A : Type} (l : list A) : slice 1 l = drop 1 l.
Proof.
  unfold slice. destruct l as [|a l]; [done|].
  replace (Z.to_nat _) with 1%nat; [done|]. cbn [length Z.ltb Z.compare]. lia.
Qed.

Lemma length_slice_1 {A : Type} (l : list A) : length (slice 1 l) = (length l - 1)%nat.
Proof. by rewrite slice_1, length_drop. Qed.

(** ** The monad's equations *)

Lemma bind_ok {A B : Type} (m : M A) (f : A → M B) σ a σ' :
  m σ = (Ok a, σ') → (m ≫= f) σ = f a σ'.
Proof. intros E. unfold mbind, M_bind. by rewrite E. Qed.

Lemma bind_throw {A B : Type} (m : M A) (f : A → M B) σ e σ' :
  m σ = (Throw e, σ') → (m ≫= f) σ = (Throw e, σ').
Proof. intros E. unfold mbind, M_bind. by rewrite E. Qed.

Lemma bind_ok_inv {A B : Type} (m : M A) (f : A → M B) σ b σ' :
  (m ≫= f) σ = (Ok b, σ') → ∃ a σ1, m σ = (Ok a, σ1) ∧ f a σ1 = (Ok b, σ').
Proof.
  unfold mbind, M_bind. destruct (m σ) as [[a|e] σ1]; [eauto | discriminate].
Qed.

(** ** Allocation *)

Lemma alloc_ok arr σ :
  ∃ l, alloc arr σ = (Ok l, alloc_to σ l arr) ∧ l ∉ dom (heap σ).
Proof. exists (fresh (dom (heap σ))). split; [done | apply is_fresh]. Qed.

Lemma alloc_to_old σ l arr l' arr' :
  l ∉ dom (heap σ) → heap σ !! l' = Some arr' → heap (alloc_to σ l arr) !! l' = Some arr'.
Proof.
  intros Hl Hl'. cbn. rewrite lookup_insert_ne; [done|].
  intros ->. apply Hl, elem_of_dom. eauto.
Qed.

Lemma alloc_to_new σ l arr : heap (alloc_to σ l arr) !! l = Some arr.
Proof. cbn. apply lookup_insert_eq. Qed.

Lemma alloc_to_subseteq σ l arr : l ∉ dom (heap σ) → heap σ ⊆ heap (alloc_to σ l arr).
Proof. intros Hl. cbn. apply insert_subseteq. by apply not_elem_of_dom. Qed.

Lemma array_slice_ok k l arr σ :
  heap σ !! l = Some arr →
  ∃ l', array_slice k l σ = (Ok l', alloc_to σ l' (slice k arr)) ∧ l' ∉ dom (heap σ).
Proof.
  intros Hl. destruct (alloc_ok (slice k arr) σ) as (l' & E & Hl').
  exists l'. split; [|done]. unfold array_slice.
  erewrite bind_ok; [exact E|]. unfold load. by rewrite Hl.
Qed.

Lemma array_map_ok f l arr σ :
  heap σ !! l = Some arr →
  ∃ l', array_map f l σ = (Ok l', alloc_to σ l' (f <$> arr)) ∧ l' ∉ dom (heap σ).
Proof.
  intros Hl. destruct (alloc_ok (f <$> arr) σ) as (l' & E & Hl').
  exists l'. split; [|done]. unfold array_map.
  erewrite bind_ok; [exact E|]. unfold load. by rewrite Hl.
Qed.

Lemma column_slice_ok data i arr σ :
  column data σ i = Some arr →
  ∃ l', column_slice data i σ = (Ok l', alloc_to σ l' (slice 1 arr)) ∧ l' ∉ dom (heap σ).
Proof.
  unfold column, column_slice. destruct (columns data !! i) as [l|]; [|done].
  cbn. apply array_slice_ok.
Qed.

Lemma column_slice_undefined data i σ :
  columns data !! i = None → column_slice data i σ = (Throw (TypeError i), σ).
Proof. unfold column_slice. by intros ->. Qed.

Lemma column_alloc_to data σ l arr i a :
  l ∉ dom (heap σ) → column data σ i = Some a → column data (alloc_to σ l arr) i = Some a.
Proof.
  unfold column. destruct (columns data !! i) as [l'|]; [|done].
  cbn [mbind option_bind]. apply alloc_to_old.
Qed.


(** ** Frame: a computation that only allocates *)

Lemma extends_refl σ : extends σ σ.
Proof. by split. Qed.

Lemma extends_trans σ1 σ2 σ3 : extends σ1 σ2 → extends σ2 σ3 → extends σ1 σ3.
Proof. intros [H1 E1] [H2 E2]. split; [by transitivity (heap σ2) | congruence]. Qed.

Lemma extends_lookup σ σ' l arr :
  extends σ σ' → heap σ !! l = Some arr → heap σ' !! l = Some arr.
Proof. intros [H _] Hl. by eapply lookup_weaken. Qed.

Lemma allocates_ret {A : Type} (a : A) : allocates (mret a).
Proof. intros σ. apply extends_refl. Qed.

Lemma allocates_throw {A : Type} e : allocates (throw (A:=A) e).
Proof. intros σ. apply extends_refl. Qed.

Lemma allocates_bind {A B : Type} (m : M A) (f : A → M B) :
  allocates m → (∀ a, allocates (f a)) → allocates (m ≫= f).
Proof.
  intros Hm Hf σ. specialize (Hm σ). unfold mbind, M_bind.
  destruct (m σ) as [[a|e] σ1]; cbn in *; [|done].
  eapply extends_trans; [exact Hm | apply Hf].
Qed.

Lemma allocates_alloc arr : allocates (alloc arr).
Proof.
  intros σ. split; [|done]. cbn. apply insert_subseteq, not_elem_of_dom, is_fresh.
Qed.

Lemma allocates_load l : allocates (load l).
Proof. intros σ. unfold load. destruct (heap σ !! l); apply extends_refl. Qed.

Lemma allocates_array_slice k l : allocates (array_slice k l).
Proof. apply allocates_bind; [apply allocates_load | intros; apply allocates_alloc]. Qed.

Lemma allocates_array_map f l : allocates (array_map f l).
Proof. apply allocates_bind; [apply allocates_load | intros; apply allocates_alloc]. Qed.

Lemma allocates_column_slice data i : allocates (column_slice data i).
Proof.
  unfold column_slice. destruct (columns data !! i);
    [apply allocates_array_slice | apply allocates_throw].
Qed.

Lemma allocates_build_params data : allocates (build_params data).
Proof.
  unfold build_params. cbv zeta.
  repeat (apply allocates_bind; [|intros ?]);
    first [ apply allocates_column_slice | apply allocates_load
          | apply allocates_alloc | apply allocates_ret ].
Qed.


(** ** Building the chart description *)

Local Ltac transport :=
  repeat (apply column_alloc_to; [assumption|]); assumption.

Local Ltac after E tac :=
  match type of E with _ = (_, ?σ1) => tac σ1 end.

Local Ltac slice_column data i a E l E' F' :=
  after E ltac:(fun σ1 =>
    destruct (column_slice_ok data i a σ1 ltac:(transport)) as (l & E' & F')).

Local Ltac map_array f E l E' F' :=
  after E ltac:(fun σ1 =>
    destruct (array_map_ok f _ _ σ1 (alloc_to_new _ _ _)) as (l & E' & F')).

Local Ltac fresh_facts :=
  unfold alloc_to in *; cbn [heap calls] in *; rewrite ?dom_insert_L in *.

Local Ltac lookup_new :=
  repeat first [ apply lookup_insert_eq | rewrite lookup_insert_ne by set_solver ].

(** With columns 0, 1 and 2 present the object literal evaluates, and
    these are the arrays it holds. *)
Lemma build_params_ok data σ a0 a1 a2 :
  column data σ 0 = Some a0 → column data σ 1 = Some a1 → column data σ 2 = Some a2 →
  ∃ c0 v0 c1 v1 c2 v2 σ',
    build_params data σ = (Ok (params_literal (names data) c0 v0 c1 v1 c2 v2), σ')
    ∧ extends σ σ'
    ∧ heap σ' !! c0 = Some (slice 1 a0)
    ∧ heap σ' !! v0 = Some (slice 1 a1)
    ∧ heap σ' !! c1 = Some (slice 1 a0)
    ∧ heap σ' !! v1 = Some (times 100 <$> slice 1 a2)
    ∧ heap σ' !! c2 = Some (slice 1 a0)
    ∧ heap σ' !! v2 = Some (times 1000 <$> slice 1 a2)
    ∧ NoDup [c0; v0; c1; v1; c2; v2]
    ∧ Forall (λ l, l ∉ dom (heap σ)) [c0; v0; c1; v1; c2; v2].
Proof.
  intros H0 H1 H2.
  destruct (column_slice_ok data 0 a0 σ H0) as (c0 & E1 & F1).
  slice_column data 1 a1 E1 v0 E2 F2.
  slice_column data 0 a0 E2 c1 E3 F3.
  slice_column data 2 a2 E3 t1 E4 F4.
  map_array (times 100) E4 v1 E5 F5.
  slice_column data 0 a0 E5 c2 E6 F6.
  slice_column data 2 a2 E6 t2 E7 F7.
  map_array (times 1000) E7 v2 E8 F8.
  exists c0, v0, c1, v1, c2, v2. eexists. split.
  { unfold build_params. cbv zeta.
    rewrite (bind_ok _ _ _ _ _ E1), (bind_ok _ _ _ _ _ E2), (bind_ok _ _ _ _ _ E3),
      (bind_ok _ _ _ _ _ E4), (bind_ok _ _ _ _ _ E5), (bind_ok _ _ _ _ _ E6),
      (bind_ok _ _ _ _ _ E7), (bind_ok _ _ _ _ _ E8).
    reflexivity. }
  split.
  { split; [|done]. cbn [heap alloc_to].
    repeat (etrans; [|apply insert_subseteq, not_elem_of_dom; eassumption]). done. }
  clear E1 E2 E3 E4 E5 E6 E7 E8 H0 H1 H2. fresh_facts. split_and!.
  - lookup_new.
  - lookup_new.
  - lookup_new.
  - lookup_new.
  - lookup_new.
  - lookup_new.
  - repeat (apply NoDup_cons; split;
            [rewrite ?not_elem_of_cons; split_and?;
             first [apply not_elem_of_nil | set_solver]|]).
    apply NoDup_nil_2.
  - repeat (apply Forall_cons; split; [set_solver|]). apply Forall_nil_2.
Qed.


(** With a column missing, reading [slice] on [undefined] throws; the
    index of the first missing column among 0, 1, 2 is the number of
    columns. *)
Lemma build_params_short data σ :
  length (columns data) < 3 →
  (∀ l, l ∈ columns data → is_Some (heap σ !! l)) →
  ∃ σ', build_params data σ = (Throw (TypeError (length (columns data))), σ')
        ∧ extends σ σ'.
Proof.
  intros Hlen Hwf.
  assert (∀ i, i < length (columns data) → ∃ a, column data σ i = Some a) as Hcol.
  { intros i Hi. destruct (lookup_lt_is_Some_2 _ _ Hi) as [l Hl].
    destruct (Hwf l) as [a Ha]; [by eapply list_elem_of_lookup_2|].
    exists a. unfold column. by rewrite Hl. }
  assert (∀ σ1, build_params data σ =
                (Throw (TypeError (length (columns data))), σ1) →
          ∃ σ', build_params data σ =
                (Throw (TypeError (length (columns data))), σ') ∧ extends σ σ') as Hfin.
  { intros σ1 E. exists σ1. split; [done|].
    pose proof (allocates_build_params data σ) as X. by rewrite E in X. }
  unfold build_params in *. cbv zeta in *.
  destruct (columns data) as [|l0 [|l1 [|l2 ?]]] eqn:Ecols; cbn [length] in *; [| | |lia].
  - eapply Hfin. apply bind_throw, column_slice_undefined. by rewrite Ecols.
  - destruct (Hcol 0) as [a0 H0]; [lia|].
    destruct (column_slice_ok data 0 a0 σ H0) as (c0 & E1 & F1).
    eapply Hfin. rewrite (bind_ok _ _ _ _ _ E1).
    apply bind_throw, column_slice_undefined. by rewrite Ecols.
  - destruct (Hcol 0) as [a0 H0]; [lia|]. destruct (Hcol 1) as [a1 H1]; [lia|].
    destruct (column_slice_ok data 0 a0 σ H0) as (c0 & E1 & F1).
    slice_column data 1 a1 E1 v0 E2 F2.
    slice_column data 0 a0 E2 c1 E3 F3.
    eapply Hfin.
    rewrite (bind_ok _ _ _ _ _ E1), (bind_ok _ _ _ _ _ E2), (bind_ok _ _ _ _ _ E3).
    apply bind_throw, column_slice_undefined. by rewrite Ecols.
Qed.

(** ** Decoding *)

Lemma alloc_all_ok cols σ :
  ∃ ls σ', alloc_all cols σ = (Ok ls, σ')
    ∧ extends σ σ'
    ∧ Forall2 (λ l c, heap σ' !! l = Some c) ls cols
    ∧ Forall (λ l, l ∉ dom (heap σ)) ls
    ∧ NoDup ls.
Proof.
  revert σ. induction cols as [|c cols IH]; intros σ.
  - exists [], σ. split_and!; [done | apply extends_refl | constructor.. ].
  - destruct (alloc_ok c σ) as (l & E & F).
    destruct (IH (alloc_to σ l c)) as (ls & σ' & E' & X & Hls & Hfresh & Hnd).
    exists (l :: ls), σ'. split_and!.
    + cbn [alloc_all]. rewrite (bind_ok _ _ _ _ _ E), (bind_ok _ _ _ _ _ E'). done.
    + eapply extends_trans; [|exact X]. split; [by apply alloc_to_subseteq | done].
    + constructor; [|done]. eapply extends_lookup; [exact X | apply alloc_to_new].
    + constructor; [done|]. eapply Forall_impl; [exact Hfresh|].
      cbn. intros l' Hl'. rewrite dom_insert_L in Hl'. set_solver.
    + constructor; [|done]. intros Hin.
      rewrite Forall_forall in Hfresh. apply (Hfresh l Hin).
      cbn. rewrite dom_insert_L. set_solver.
Qed.

Lemma decode_ok doc σ :
  ∃ data σ', decode doc σ = (Ok data, σ')
    ∧ names data = doc_names doc
    ∧ length (columns data) = length (doc_columns doc)
    ∧ extends σ σ'
    ∧ (∀ i, column data σ' i = doc_columns doc !! i)
    ∧ Forall (λ l, l ∉ dom (heap σ)) (columns data).
Proof.
  destruct (alloc_all_ok (doc_columns doc) σ) as (ls & σ' & E & X & Hls & Hfresh & _).
  exists {| names := doc_names doc; columns := ls |}, σ'. split_and!; try done.
  - unfold decode. by rewrite (bind_ok _ _ _ _ _ E).
  - cbn. by eapply Forall2_length.
  - intros i. unfold column. cbn [columns].
    destruct (ls !! i) as [l|] eqn:El; cbn.
    + destruct (Forall2_lookup_l _ _ _ _ _ Hls El) as (c & -> & Hc). done.
    + symmetry. apply lookup_ge_None. apply lookup_ge_None in El.
      by rewrite <- (Forall2_length _ _ _ Hls).
Qed.


(** ** The whole script *)

Lemma emit_bind {B : Type} c (f : unit → M B) σ : (emit c ≫= f) σ = f tt (logged σ [c]).
Proof. reflexivity. Qed.

Lemma logged_logged σ cs cs' : logged (logged σ cs) cs' = logged σ (cs ++ cs').
Proof. unfold logged. cbn. by rewrite app_assoc. Qed.

Lemma extends_logged σ σ' cs : extends (logged σ cs) σ' → heap σ ⊆ heap σ' ∧ calls σ' = calls σ ++ cs.
Proof. by intros [? ?]. Qed.

Lemma run_fetch_rejected σ :
  run FetchRejected σ = (Throw FetchError, logged σ [CallFetch "../../overview.json"]).
Proof. reflexivity. Qed.

Lemma run_json_rejected σ :
  run JsonRejected σ = (Throw JsonError, logged σ [CallFetch "../../overview.json"; CallJson]).
Proof. unfold run. rewrite !emit_bind, logged_logged. reflexivity. Qed.

Lemma run_decoded doc σ :
  run (Decoded doc) σ =
  (decode doc ≫= λ data, build_params data ≫= λ params, emit (CallCreateMain params CONFIG))
    (logged σ [CallFetch "../../overview.json"; CallJson]).
Proof. unfold run. rewrite !emit_bind, logged_logged. reflexivity. Qed.

(** A document with columns 0, 1 and 2: the script runs to its end and
    calls the engine once. *)
Lemma run_decoded_ok doc σ a0 a1 a2 :
  doc_columns doc !! 0 = Some a0 → doc_columns doc !! 1 = Some a1 →
  doc_columns doc !! 2 = Some a2 →
  ∃ c0 v0 c1 v1 c2 v2 σ',
    run (Decoded doc) σ = (Ok tt, σ')
    ∧ calls σ' = calls σ ++ [ CallFetch "../../overview.json"; CallJson;
          CallCreateMain (params_literal (doc_names doc) c0 v0 c1 v1 c2 v2) CONFIG ]
    ∧ heap σ ⊆ heap σ'
    ∧ heap σ' !! c0 = Some (slice 1 a0)
    ∧ heap σ' !! v0 = Some (slice 1 a1)
    ∧ heap σ' !! c1 = Some (slice 1 a0)
    ∧ heap σ' !! v1 = Some (times 100 <$> slice 1 a2)
    ∧ heap σ' !! c2 = Some (slice 1 a0)
    ∧ heap σ' !! v2 = Some (times 1000 <$> slice 1 a2)
    ∧ NoDup [c0; v0; c1; v1; c2; v2].
Proof.
  intros H0 H1 H2. rewrite run_decoded.
  destruct (decode_ok doc (logged σ [CallFetch "../../overview.json"; CallJson]))
    as (data & σ1 & E1 & Hnm & _ & X1 & Hcol & _).
  rewrite <- (Hcol 0) in H0. rewrite <- (Hcol 1) in H1. rewrite <- (Hcol 2) in H2.
  destruct (build_params_ok data σ1 a0 a1 a2 H0 H1 H2)
    as (c0 & v0 & c1 & v1 & c2 & v2 & σ2 & E2 & X2 & L0 & L1 & L2 & L3 & L4 & L5 & ND & _).
  exists c0, v0, c1, v1, c2, v2, (logged σ2 [CallCreateMain
    (params_literal (doc_names doc) c0 v0 c1 v1 c2 v2) CONFIG]).
  rewrite (bind_ok _ _ _ _ _ E1), (bind_ok _ _ _ _ _ E2), Hnm.
  destruct (extends_logged _ _ _ (extends_trans _ _ _ X1 X2)) as [Hsub Hcalls].
  split_and!; try done.
  cbn. rewrite Hcalls, <- app_assoc. reflexivity.
Qed.

(** A document with fewer than three columns: a [TypeError], and the
    engine is never called. *)
Lemma run_decoded_short doc σ :
  length (doc_columns doc) < 3 →
  ∃ σ', run (Decoded doc) σ = (Throw (TypeError (length (doc_columns doc))), σ')
    ∧ calls σ' = calls σ ++ [CallFetch "../../overview.json"; CallJson]
    ∧ heap σ ⊆ heap σ'.
Proof.
  intros Hlen. rewrite run_decoded.
  destruct (decode_ok doc (logged σ [CallFetch "../../overview.json"; CallJson]))
    as (data & σ1 & E1 & _ & Hl & X1 & Hcol & _).
  destruct (build_params_short data σ1) as (σ2 & E2 & X2).
  { by rewrite Hl. }
  { intros l [i Hi]%list_elem_of_lookup_1. specialize (Hcol i).
    unfold column in Hcol. rewrite Hi in Hcol. cbn in Hcol. rewrite Hcol.
    apply lookup_lt_is_Some. rewrite <- Hl. by eapply lookup_lt_Some. }
  exists σ2. rewrite (bind_ok _ _ _ _ _ E1), (bind_throw _ _ _ _ _ E2), Hl.
  destruct (extends_logged _ _ _ (extends_trans _ _ _ X1 X2)) as [Hsub Hcalls].
  done.
Qed.

(** [Dangling] never comes out of a run. *)
Lemma run_not_dangling net σ l : (run net σ).1 ≠ Throw (Dangling l).
Proof.
  destruct net as [| |doc]; [by rewrite run_fetch_rejected | by rewrite run_json_rejected |].
  destruct (decide (length (doc_columns doc) < 3)) as [Hlt|Hge].
  - destruct (run_decoded_short doc σ Hlt) as (σ' & -> & _). done.
  - destruct (doc_columns doc) as [|a0 [|a1 [|a2 rest]]] eqn:E; cbn in Hge; try lia.
    destruct (run_decoded_ok doc σ a0 a1 a2) as (? & ? & ? & ? & ? & ? & ? & -> & _);
      by rewrite ?E.
Qed.


(** ** Every array handed out is new *)

Lemma returns_new_alloc arr : returns_new (alloc arr).
Proof. intros σ l σ' [= <- _]. apply is_fresh. Qed.

Lemma returns_new_after_load l (f : list cell → list cell) :
  returns_new (load l ≫= λ arr, alloc (f arr)).
Proof.
  intros σ l' σ' (arr & σ1 & E1 & E2)%bind_ok_inv.
  unfold load in E1. destruct (heap σ !! l); [|done].
  injection E1 as <- <-. by eapply returns_new_alloc.
Qed.

Lemma returns_new_column_slice data i : returns_new (column_slice data i).
Proof.
  unfold column_slice. destruct (columns data !! i); [|done].
  apply (returns_new_after_load _ (slice 1)).
Qed.

Lemma returns_new_array_map f l : returns_new (array_map f l).
Proof. apply (returns_new_after_load _ (fmap f)). Qed.

Lemma new_step (m : M loc) σ0 σ l σ' :
  allocates m → returns_new m → extends σ0 σ → m σ = (Ok l, σ') →
  extends σ0 σ' ∧ l ∉ dom (heap σ0).
Proof.
  intros Ha Hn X E. specialize (Ha σ). rewrite E in Ha. split.
  - by eapply extends_trans.
  - intros Hin. apply (Hn _ _ _ E). destruct X as [X _].
    by apply (subseteq_dom _ _ X).
Qed.

Lemma build_params_new data σ p σ' :
  build_params data σ = (Ok p, σ') →
  Forall (λ l, l ∉ dom (heap σ)) (chart_arrays p).
Proof.
  unfold build_params. cbv zeta. intros H.
  apply bind_ok_inv in H as (c0 & σ1 & E1 & H).
  apply bind_ok_inv in H as (v0 & σ2 & E2 & H).
  apply bind_ok_inv in H as (c1 & σ3 & E3 & H).
  apply bind_ok_inv in H as (t1 & σ4 & E4 & H).
  apply bind_ok_inv in H as (v1 & σ5 & E5 & H).
  apply bind_ok_inv in H as (c2 & σ6 & E6 & H).
  apply bind_ok_inv in H as (t2 & σ7 & E7 & H).
  apply bind_ok_inv in H as (v2 & σ8 & E8 & H).
  injection H as <- <-.
  pose proof allocates_column_slice as Ac. pose proof returns_new_column_slice as Nc.
  pose proof allocates_array_map as Am. pose proof returns_new_array_map as Nm.
  destruct (new_step _ σ _ _ _ (Ac _ _) (Nc _ _) (extends_refl σ) E1) as [X1 F1].
  destruct (new_step _ σ _ _ _ (Ac _ _) (Nc _ _) X1 E2) as [X2 F2].
  destruct (new_step _ σ _ _ _ (Ac _ _) (Nc _ _) X2 E3) as [X3 F3].
  destruct (new_step _ σ _ _ _ (Ac _ _) (Nc _ _) X3 E4) as [X4 F4].
  destruct (new_step _ σ _ _ _ (Am _ _) (Nm _ _) X4 E5) as [X5 F5].
  destruct (new_step _ σ _ _ _ (Ac _ _) (Nc _ _) X5 E6) as [X6 F6].
  destruct (new_step _ σ _ _ _ (Ac _ _) (Nc _ _) X6 E7) as [X7 F7].
  destruct (new_step _ σ _ _ _ (Am _ _) (Nm _ _) X7 E8) as [X8 F8].
  cbn. repeat (constructor; [assumption|]). constructor.
Qed.

(** ** Reading a built chart by content *)

Lemma read_chart_literal h nm c0 v0 c1 v1 c2 v2 x0 y0 x1 y1 x2 y2 :
  h !! c0 = Some x0 → h !! v0 = Some y0 → h !! c1 = Some x1 →
  h !! v1 = Some y1 → h !! c2 = Some x2 → h !! v2 = Some y2 →
  read_chart h (params_literal nm c0 v0 c1 v1 c2 v2) =
  Some {| view_selector := "#chart-2"; view_contentName := "New chart";
          view_coordType := "date"; view_valueType := "number";
          view_dataSets := [
            {| view_name := nm !! "y0"; view_coords := x0; view_values := y0 |};
            {| view_name := Some (to_string (nm !! "y1") +:+ " x 100");
               view_coords := x1; view_values := y1 |};
            {| view_name := Some (to_string (nm !! "y1") +:+ " x 1000");
               view_coords := x2; view_values := y2 |} ] |}.
Proof.
  intros H0 H1 H2 H3 H4 H5. unfold read_chart, read_series. cbn.
  rewrite H0, H1, H2, H3, H4, H5. reflexivity.
Qed.


(** ** The claims about the chart description *)

(** C1: every array in [dataSets] is a column without its first cell (the
    header), or the image of such a column under the scaling; each is an
    object that did not exist before, so no column object of [data],
    header included, is passed on. *)
Theorem dataSets_without_headers data σ a0 a1 a2 :
  column data σ 0 = Some a0 → column data σ 1 = Some a1 → column data σ 2 = Some a2 →
  ∃ p σ' s0 s1 s2,
    build_params data σ = (Ok p, σ')
    ∧ dataSets p = [s0; s1; s2]
    ∧ heap σ' !! coords s0 = Some (drop 1 a0)
    ∧ heap σ' !! values s0 = Some (drop 1 a1)
    ∧ heap σ' !! coords s1 = Some (drop 1 a0)
    ∧ heap σ' !! values s1 = Some (times 100 <$> drop 1 a2)
    ∧ heap σ' !! coords s2 = Some (drop 1 a0)
    ∧ heap σ' !! values s2 = Some (times 1000 <$> drop 1 a2)
    ∧ Forall (λ l, l ∉ dom (heap σ)) (chart_arrays p).
Proof.
  intros H0 H1 H2.
  destruct (build_params_ok data σ a0 a1 a2 H0 H1 H2)
    as (c0 & v0 & c1 & v1 & c2 & v2 & σ' & E & _ & L0 & L1 & L2 & L3 & L4 & L5 & _ & F).
  rewrite slice_1 in *.
  eexists _, σ', _, _, _. split; [exact E|]. split; [reflexivity|]. cbn.
  split_and!; done.
Qed.

(** C3: column 0 gives the coordinates of every series; the values come
    from column 1 (first series) and column 2 (second and third). *)
Theorem series_columns data σ a0 a1 a2 :
  column data σ 0 = Some a0 → column data σ 1 = Some a1 → column data σ 2 = Some a2 →
  ∃ p σ' s0 s1 s2,
    build_params data σ = (Ok p, σ')
    ∧ dataSets p = [s0; s1; s2]
    ∧ Forall (λ s, heap σ' !! coords s = slice 1 <$> column data σ 0) [s0; s1; s2]
    ∧ heap σ' !! values s0 = slice 1 <$> column data σ 1
    ∧ heap σ' !! values s1 = (fmap (times 100) ∘ slice 1) <$> column data σ 2
    ∧ heap σ' !! values s2 = (fmap (times 1000) ∘ slice 1) <$> column data σ 2.
Proof.
  intros H0 H1 H2.
  destruct (build_params_ok data σ a0 a1 a2 H0 H1 H2)
    as (c0 & v0 & c1 & v1 & c2 & v2 & σ' & E & _ & L0 & L1 & L2 & L3 & L4 & L5 & _).
  rewrite H0, H1, H2.
  eexists _, σ', _, _, _. split; [exact E|]. split; [reflexivity|]. cbn.
  split_and!; [by repeat constructor | done..].
Qed.

(** C4: when the columns have one length, every series built has as
    many coordinates as values. *)
Theorem series_lengths_agree data σ n :
  3 ≤ length (columns data) → equal_length_columns data σ n →
  ∃ p σ',
    build_params data σ = (Ok p, σ')
    ∧ length (dataSets p) = 3
    ∧ Forall (series_invariant σ') (dataSets p).
Proof.
  intros Hlen Heq.
  assert (∀ i, i < 3 → ∃ a, column data σ i = Some a ∧ length a = n) as Hcol.
  { intros i Hi. destruct (lookup_lt_is_Some_2 (columns data) i) as [l Hl]; [lia|].
    pose proof (Forall_lookup_1 _ _ _ _ Heq Hl) as Hn. unfold array_length in Hn.
    destruct (heap σ !! l) as [a|] eqn:Ha; [|done]. injection Hn as Hn.
    exists a. unfold column. rewrite Hl. done. }
  destruct (Hcol 0) as (a0 & H0 & N0); [lia|].
  destruct (Hcol 1) as (a1 & H1 & N1); [lia|].
  destruct (Hcol 2) as (a2 & H2 & N2); [lia|].
  destruct (build_params_ok data σ a0 a1 a2 H0 H1 H2)
    as (c0 & v0 & c1 & v1 & c2 & v2 & σ' & E & _ & L0 & L1 & L2 & L3 & L4 & L5 & _).
  eexists _, σ'. split; [exact E|]. split; [reflexivity|]. cbn.
  repeat constructor; unfold array_length; cbn;
    rewrite ?L0, ?L1, ?L2, ?L3, ?L4, ?L5; cbn;
    rewrite ?length_fmap, ?length_slice_1; by eauto with congruence.
Qed.

(** C5: building the description only allocates.  Whatever the outcome,
    every object of the store is left as it was, the columns of [data]
    among them; and each array placed in [dataSets] is a new object. *)
Theorem build_params_reads_only data σ :
  (∀ l arr, heap σ !! l = Some arr → heap (build_params data σ).2 !! l = Some arr)
  ∧ (∀ i arr, column data σ i = Some arr → column data (build_params data σ).2 i = Some arr)
  ∧ calls (build_params data σ).2 = calls σ
  ∧ (∀ p, (build_params data σ).1 = Ok p →
       Forall (λ l, l ∉ dom (heap σ)) (chart_arrays p)).
Proof.
  pose proof (allocates_build_params data σ) as X.
  split_and!.
  - intros l arr. by apply extends_lookup.
  - intros i arr. unfold column. destruct (columns data !! i) as [l|]; [|done].
    cbn. by apply extends_lookup.
  - apply X.
  - intros p Hp. destruct (build_params data σ) as [r σ'] eqn:E. cbn in Hp. subst r.
    by eapply build_params_new.
Qed.

(** C8: the description is tagged ["date"] and ["number"], both among the
    tags the engine accepts. *)
Theorem type_tags_allowed data σ a0 a1 a2 :
  column data σ 0 = Some a0 → column data σ 1 = Some a1 → column data σ 2 = Some a2 →
  ∃ p σ',
    build_params data σ = (Ok p, σ')
    ∧ coordType p = "date" ∧ coordType p ∈ coord_types
    ∧ valueType p = "number" ∧ valueType p ∈ value_types.
Proof.
  intros H0 H1 H2.
  destruct (build_params_ok data σ a0 a1 a2 H0 H1 H2)
    as (c0 & v0 & c1 & v1 & c2 & v2 & σ' & E & _).
  eexists _, σ'. split; [exact E|]. cbn. unfold coord_types, value_types.
  split_and!; [done | by left | done | by left].
Qed.

(** C9: the three series have the same coordinates, cell by cell, in
    three different array objects. *)
Theorem coords_equal_not_shared data σ a0 a1 a2 :
  column data σ 0 = Some a0 → column data σ 1 = Some a1 → column data σ 2 = Some a2 →
  ∃ p σ',
    build_params data σ = (Ok p, σ')
    ∧ length (dataSets p) = 3
    ∧ Forall (λ s, heap σ' !! coords s = Some (slice 1 a0)) (dataSets p)
    ∧ NoDup (coords <$> dataSets p)
    ∧ NoDup (chart_arrays p).
Proof.
  intros H0 H1 H2.
  destruct (build_params_ok data σ a0 a1 a2 H0 H1 H2)
    as (c0 & v0 & c1 & v1 & c2 & v2 & σ' & E & _ & L0 & L1 & L2 & L3 & L4 & L5 & ND & _).
  eexists _, σ'. split; [exact E|]. split; [reflexivity|]. cbn.
  split_and!; [by repeat constructor | | exact ND].
  eapply sublist_NoDup; [exact ND|].
  apply sublist_skip, sublist_cons, sublist_skip, sublist_cons, sublist_skip, sublist_cons.
  constructor.
Qed.


Lemma created_one σ url p cfg :
  calls σ = [CallFetch url; CallJson; CallCreateMain p cfg] →
  created σ = [(read_chart (heap σ) p, cfg)].
Proof. intros E. unfold created. rewrite E. reflexivity. Qed.

Lemma created_none σ url :
  calls σ = [CallFetch url; CallJson] → created σ = [].
Proof. intros E. unfold created. rewrite E. reflexivity. Qed.

(** ** The claims about the run *)

(** C2: a run on a document with columns 0, 1 and 2 calls
    [Graphima.createMain] exactly once, with [CONFIG] and a description of
    exactly three series: the values of column 1 as they are, those of
    column 2 times 100, and those of column 2 times 1000. *)
Theorem createMain_called_once doc σ a0 a1 a2 :
  doc_columns doc !! 0 = Some a0 → doc_columns doc !! 1 = Some a1 →
  doc_columns doc !! 2 = Some a2 →
  ∃ p σ' s0 s1 s2,
    run (Decoded doc) σ = (Ok tt, σ')
    ∧ calls σ' = calls σ ++
        [CallFetch "../../overview.json"; CallJson; CallCreateMain p CONFIG]
    ∧ dataSets p = [s0; s1; s2]
    ∧ heap σ' !! values s0 = Some (slice 1 a1)
    ∧ heap σ' !! values s1 =
        Some ((λ v, CNum (to_number v * 100)%float) <$> slice 1 a2)
    ∧ heap σ' !! values s2 =
        Some ((λ v, CNum (to_number v * 1000)%float) <$> slice 1 a2).
Proof.
  intros H0 H1 H2.
  destruct (run_decoded_ok doc σ a0 a1 a2 H0 H1 H2)
    as (c0 & v0 & c1 & v1 & c2 & v2 & σ' & E & Hcalls & _ & _ & L1 & _ & L3 & _ & L5 & _).
  eexists _, σ', _, _, _. split; [exact E|]. split; [exact Hcalls|].
  split; [reflexivity|]. cbn. done.
Qed.

(** C10: what the engine receives is a function of the fetched document
    alone.  Two runs on the same document, started in any two stores, end
    the same way and pass descriptions that are equal by content; no
    assumption on the arithmetic is needed, the products being IEEE
    doubles. *)
Theorem params_determined_by_document net h1 h2 :
  (run net (start h1)).1 = (run net (start h2)).1
  ∧ created (run net (start h1)).2 = created (run net (start h2)).2
  ∧ Forall (λ c, is_Some c.1) (created (run net (start h1)).2).
Proof.
  destruct net as [| |doc];
    [by rewrite !run_fetch_rejected | by rewrite !run_json_rejected |].
  destruct (decide (length (doc_columns doc) < 3)) as [Hlt|Hge].
  - destruct (run_decoded_short doc (start h1) Hlt) as (σ1 & -> & C1 & _).
    destruct (run_decoded_short doc (start h2) Hlt) as (σ2 & -> & C2 & _).
    cbn [fst snd]. rewrite (created_none _ _ C1), (created_none _ _ C2). done.
  - destruct (doc_columns doc) as [|a0 [|a1 [|a2 rest]]] eqn:Ecols; cbn in Hge; try lia.
    destruct (run_decoded_ok doc (start h1) a0 a1 a2)
      as (c0 & v0 & c1 & v1 & c2 & v2 & σ1 & -> & C1 & _ & K0 & K1 & K2 & K3 & K4 & K5 & _);
      try by rewrite Ecols.
    destruct (run_decoded_ok doc (start h2) a0 a1 a2)
      as (d0 & w0 & d1 & w1 & d2 & w2 & σ2 & -> & C2 & _ & L0 & L1 & L2 & L3 & L4 & L5 & _);
      try by rewrite Ecols.
    cbn [fst snd]. rewrite (created_one _ _ _ _ C1), (created_one _ _ _ _ C2).
    rewrite (read_chart_literal _ _ _ _ _ _ _ _ _ _ _ _ _ _ K0 K1 K2 K3 K4 K5).
    rewrite (read_chart_literal _ _ _ _ _ _ _ _ _ _ _ _ _ _ L0 L1 L2 L3 L4 L5).
    split_and!; [done..|]. by repeat constructor.
Qed.


(** ** More on the run: failure, what reaches the engine, what does not *)

(** X1: a decoded body of the contract's shape (a [names] object of
    strings, a [columns] array of arrays of scalars) with fewer than three
    columns makes the script throw the [TypeError] of reading [slice] on
    [data.columns[n]], [n] being the number of columns; the engine is not
    called, and the objects that existed before are as they were.  Bodies
    of another shape (no [names], a column that is no array) are outside
    [Document] and this statement. *)
Theorem short_document_throws doc σ :
  length (doc_columns doc) < 3 →
  ∃ σ',
    run (Decoded doc) σ = (Throw (TypeError (length (doc_columns doc))), σ')
    ∧ calls σ' = calls σ ++ [CallFetch "../../overview.json"; CallJson]
    ∧ (∀ l arr, heap σ !! l = Some arr → heap σ' !! l = Some arr).
Proof.
  intros Hlen. destruct (run_decoded_short doc σ Hlen) as (σ' & E & Hcalls & Hsub).
  exists σ'. split_and!; [done..|]. intros l arr Hl. by eapply lookup_weaken.
Qed.

(** X2: among the runs whose fetch is rejected, whose body is not JSON,
    or whose body decodes to a document of the contract's shape,
    [Graphima.createMain] is called, and then once, exactly in those of
    the third kind whose document has at least three columns.  Bodies of
    another shape are outside [fetched] and this statement. *)
Theorem engine_called_iff net h :
  length (created (run net (start h)).2) ≤ 1
  ∧ (created (run net (start h)).2 ≠ []
     ↔ ∃ doc, net = Decoded doc ∧ 3 ≤ length (doc_columns doc)).
Proof.
  destruct net as [| |doc].
  - rewrite run_fetch_rejected. split; [cbn; lia|].
    split; [done | by intros (? & ? & _)].
  - rewrite run_json_rejected. split; [cbn; lia|].
    split; [done | by intros (? & ? & _)].
  - destruct (decide (length (doc_columns doc) < 3)) as [Hlt|Hge].
    + destruct (run_decoded_short doc (start h) Hlt) as (σ' & -> & Hcalls & _).
      cbn [fst snd]. rewrite (created_none _ _ Hcalls). split; [cbn; lia|].
      split; [done|]. intros (doc' & [= <-] & Hlen). lia.
    + destruct (doc_columns doc) as [|a0 [|a1 [|a2 rest]]] eqn:Ecols;
        cbn in Hge; try lia.
      destruct (run_decoded_ok doc (start h) a0 a1 a2)
        as (c0 & v0 & c1 & v1 & c2 & v2 & σ' & -> & Hcalls & _); try by rewrite Ecols.
      cbn [fst snd]. rewrite (created_one _ _ _ _ Hcalls). split; [cbn; lia|].
      split; [|done]. intros _. exists doc. split; [done|]. rewrite Ecols. cbn. lia.
Qed.

(** X3: what the engine receives depends on the two names [y0] and [y1]
    and on the cells after the first of columns 0, 1 and 2, and on
    nothing else of the document: not on the headers, not on further
    columns, not on further names. *)
Theorem params_depend_only_on_samples doc1 doc2 h1 h2 :
  doc_names doc1 !! "y0" = doc_names doc2 !! "y0" →
  doc_names doc1 !! "y1" = doc_names doc2 !! "y1" →
  3 ≤ length (doc_columns doc1) → 3 ≤ length (doc_columns doc2) →
  (∀ i, i < 3 → drop 1 <$> doc_columns doc1 !! i = drop 1 <$> doc_columns doc2 !! i) →
  created (run (Decoded doc1) (start h1)).2 = created (run (Decoded doc2) (start h2)).2
  ∧ created (run (Decoded doc1) (start h1)).2 ≠ [].
Proof.
  intros Hy0 Hy1 Hlen1 Hlen2 Hsame.
  destruct (doc_columns doc1) as [|a0 [|a1 [|a2 rest1]]] eqn:E1; cbn in Hlen1; try lia.
  destruct (doc_columns doc2) as [|b0 [|b1 [|b2 rest2]]] eqn:E2; cbn in Hlen2; try lia.
  pose proof (Hsame 0 ltac:(lia)) as S0. pose proof (Hsame 1 ltac:(lia)) as S1.
  pose proof (Hsame 2 ltac:(lia)) as S2. cbn in S0, S1, S2.
  injection S0 as S0. injection S1 as S1. injection S2 as S2.
  destruct (run_decoded_ok doc1 (start h1) a0 a1 a2)
    as (c0 & v0 & c1 & v1 & c2 & v2 & σ1 & -> & C1 & _ & K0 & K1 & K2 & K3 & K4 & K5 & _);
    try by rewrite E1.
  destruct (run_decoded_ok doc2 (start h2) b0 b1 b2)
    as (d0 & w0 & d1 & w1 & d2 & w2 & σ2 & -> & C2 & _ & L0 & L1 & L2 & L3 & L4 & L5 & _);
    try by rewrite E2.
  cbn [fst snd]. rewrite (created_one _ _ _ _ C1), (created_one _ _ _ _ C2).
  rewrite (read_chart_literal _ _ _ _ _ _ _ _ _ _ _ _ _ _ K0 K1 K2 K3 K4 K5).
  rewrite (read_chart_literal _ _ _ _ _ _ _ _ _ _ _ _ _ _ L0 L1 L2 L3 L4 L5).
  rewrite !slice_1, Hy0, Hy1, S0, S1, S2. done.
Qed.

(** ** More on the chart description: cells, lengths, names *)

(** X4: in the second and third series every value is a number, whatever
    the cell was (a string goes through StringToNumber, [null] counts as
    0, [true] as 1): value [i] is the double product of ToNumber of cell
    [i + 1] of column 2 with 100, and with 1000.  The first series has
    cell [i + 1] of column 1 as it is, number or not. *)
Theorem scaled_values_are_numbers data σ a0 a1 a2 :
  column data σ 0 = Some a0 → column data σ 1 = Some a1 → column data σ 2 = Some a2 →
  ∃ p σ' s0 s1 s2 ys0 ys1 ys2,
    build_params data σ = (Ok p, σ')
    ∧ dataSets p = [s0; s1; s2]
    ∧ heap σ' !! values s0 = Some ys0
    ∧ heap σ' !! values s1 = Some ys1
    ∧ heap σ' !! values s2 = Some ys2
    ∧ (∀ i, ys0 !! i = a1 !! S i)
    ∧ (∀ i, ys1 !! i = (λ v, CNum (to_number v * 100)%float) <$> a2 !! S i)
    ∧ (∀ i, ys2 !! i = (λ v, CNum (to_number v * 1000)%float) <$> a2 !! S i)
    ∧ Forall (λ c, is_number c = true) ys1
    ∧ Forall (λ c, is_number c = true) ys2.
Proof.
  intros H0 H1 H2.
  destruct (build_params_ok data σ a0 a1 a2 H0 H1 H2)
    as (c0 & v0 & c1 & v1 & c2 & v2 & σ' & E & _ & L0 & L1 & L2 & L3 & L4 & L5 & _).
  rewrite slice_1 in *.
  eexists _, σ', _, _, _, _, _, _. split; [exact E|]. split; [reflexivity|]. cbn.
  split_and!; [exact L1 | exact L3 | exact L5 | ..].
  - intros i. by rewrite lookup_drop.
  - intros i. by rewrite list_lookup_fmap, lookup_drop.
  - intros i. by rewrite list_lookup_fmap, lookup_drop.
  - by apply Forall_fmap, Forall_true.
  - by apply Forall_fmap, Forall_true.
Qed.

(** X5: the script does not compare the lengths of the columns.  Each
    array has one cell less than its column (none for an empty column),
    so a series has as many coordinates as values exactly when its two
    columns have the same number of cells after the first. *)
Theorem series_lengths_follow_columns data σ a0 a1 a2 :
  column data σ 0 = Some a0 → column data σ 1 = Some a1 → column data σ 2 = Some a2 →
  ∃ p σ' s0 s1 s2,
    build_params data σ = (Ok p, σ')
    ∧ dataSets p = [s0; s1; s2]
    ∧ Forall (λ s, array_length σ' (coords s) = Some (length a0 - 1)) [s0; s1; s2]
    ∧ array_length σ' (values s0) = Some (length a1 - 1)
    ∧ array_length σ' (values s1) = Some (length a2 - 1)
    ∧ array_length σ' (values s2) = Some (length a2 - 1)
    ∧ (series_invariant σ' s0 ↔ length a0 - 1 = length a1 - 1)
    ∧ (series_invariant σ' s1 ↔ length a0 - 1 = length a2 - 1)
    ∧ (series_invariant σ' s2 ↔ length a0 - 1 = length a2 - 1).
Proof.
  intros H0 H1 H2.
  destruct (build_params_ok data σ a0 a1 a2 H0 H1 H2)
    as (c0 & v0 & c1 & v1 & c2 & v2 & σ' & E & _ & L0 & L1 & L2 & L3 & L4 & L5 & _).
  eexists _, σ', _, _, _. split; [exact E|]. split; [reflexivity|].
  assert (∀ l arr, heap σ' !! l = Some arr → array_length σ' l = Some (length arr)) as Hlen.
  { intros l arr Hl. unfold array_length. by rewrite Hl. }
  pose proof (Hlen _ _ L0) as N0. pose proof (Hlen _ _ L1) as N1.
  pose proof (Hlen _ _ L2) as N2. pose proof (Hlen _ _ L3) as N3.
  pose proof (Hlen _ _ L4) as N4. pose proof (Hlen _ _ L5) as N5.
  rewrite ?length_fmap, !length_slice_1 in *.
  unfold series_invariant. cbn. rewrite N0, N1, N2, N3, N4, N5.
  split_and!; [by repeat constructor | done.. | | |];
    (split; [by intros [_ [= ->]] | by intros ->]).
Qed.

(** X6: the first series is named by [data.names.y0], [undefined] when
    the key is missing.  The second and third always have a string for a
    name, made of [data.names.y1], or of the word undefined when that key
    is missing, and the two names differ. *)
Theorem series_names data σ a0 a1 a2 :
  column data σ 0 = Some a0 → column data σ 1 = Some a1 → column data σ 2 = Some a2 →
  ∃ p σ' s0 s1 s2 n1 n2,
    build_params data σ = (Ok p, σ')
    ∧ dataSets p = [s0; s1; s2]
    ∧ name s0 = names data !! "y0"
    ∧ name s1 = Some n1 ∧ name s2 = Some n2
    ∧ n1 ≠ n2
    ∧ (names data !! "y1" = None → n1 = "undefined x 100" ∧ n2 = "undefined x 1000")
    ∧ (∀ y, names data !! "y1" = Some y → n1 = y +:+ " x 100" ∧ n2 = y +:+ " x 1000").
Proof.
  intros H0 H1 H2.
  destruct (build_params_ok data σ a0 a1 a2 H0 H1 H2)
    as (c0 & v0 & c1 & v1 & c2 & v2 & σ' & E & _).
  eexists _, σ', _, _, _, _, _. split; [exact E|]. split; [reflexivity|]. cbn.
  split_and!; [done..| | |].
  - intros Heq. by apply (inj (String.app _)) in Heq.
  - by intros ->.
  - by intros y ->.
Qed.

End Example.

Arguments heap {Config} _.
Arguments calls {Config} _.

(** ** The claims at the demo document

    [CONFIG] is taken to be [tt], and StringToNumber to send every header
    to NaN. *)

Example run_demo_calls :
  calls (run unit tt (λ _, nan) (Decoded demo_doc) (start unit ∅)).2 =
  [ CallFetch unit "../../overview.json"; CallJson unit;
    CallCreateMain unit (params_literal (doc_names demo_doc) 4 5 6 8 9 11) tt ].
Proof. reflexivity. Qed.

(** Two columns only: [data.columns[2]] is [undefined], the engine is not
    called. *)
Example run_two_columns :
  let out := run unit tt (λ _, nan)
               (Decoded {| doc_names := ∅; doc_columns := [[CStr "x"]; [CStr "y0"]] |})
               (start unit ∅) in
  out.1 = Throw (TypeError 2) ∧ created unit out.2 = [].
Proof. split; reflexivity. Qed.

(** The products are doubles: 0.07 times 100 is not 7. *)
Example times_rounds :
  times (λ _, nan) 100 (CNum 0x1.1eb851eb851ecp-4) = CNum 0x1.c000000000001p+2.
Proof. reflexivity. Qed.

Lemma dataSets_without_headers_witness :
  ∃ p σ' s0 s1 s2,
    build_params unit (λ _, nan) demo_data (demo_state unit) = (Ok p, σ')
    ∧ dataSets p = [s0; s1; s2]
    ∧ heap σ' !! coords s0 = Some [CNum 1; CNum 2]
    ∧ heap σ' !! values s0 = Some [CNum 10; CNum 20]
    ∧ heap σ' !! coords s1 = Some [CNum 1; CNum 2]
    ∧ heap σ' !! values s1 = Some [CNum 50; CNum 25]
    ∧ heap σ' !! coords s2 = Some [CNum 1; CNum 2]
    ∧ heap σ' !! values s2 = Some [CNum 500; CNum 250]
    ∧ Forall (λ l, l ∉ dom (heap (demo_state unit))) (chart_arrays p).
Proof.
  apply (dataSets_without_headers unit (λ _, nan) demo_data (demo_state unit)
           [CStr "x"; CNum 1; CNum 2] [CStr "y0"; CNum 10; CNum 20]
           [CStr "y1"; CNum 0.5; CNum 0.25]); reflexivity.
Defined.

Lemma series_columns_witness :
  ∃ p σ' s0 s1 s2,
    build_params unit (λ _, nan) demo_data (demo_state unit) = (Ok p, σ')
    ∧ dataSets p = [s0; s1; s2]
    ∧ Forall (λ s, heap σ' !! coords s = Some [CNum 1; CNum 2]) [s0; s1; s2]
    ∧ heap σ' !! values s0 = Some [CNum 10; CNum 20]
    ∧ heap σ' !! values s1 = Some [CNum 50; CNum 25]
    ∧ heap σ' !! values s2 = Some [CNum 500; CNum 250].
Proof.
  apply (series_columns unit (λ _, nan) demo_data (demo_state unit)
           [CStr "x"; CNum 1; CNum 2] [CStr "y0"; CNum 10; CNum 20]
           [CStr "y1"; CNum 0.5; CNum 0.25]); reflexivity.
Defined.

Lemma series_lengths_agree_witness :
  ∃ p σ',
    build_params unit (λ _, nan) demo_data (demo_state unit) = (Ok p, σ')
    ∧ length (dataSets p) = 3
    ∧ Forall (series_invariant unit σ') (dataSets p).
Proof.
  apply (series_lengths_agree unit (λ _, nan) demo_data (demo_state unit) 3).
  - simpl. lia.
  - repeat constructor.
Defined.

Lemma build_params_reads_only_witness :
  heap (build_params unit (λ _, nan) demo_data (demo_state unit)).2 !! 3%positive
    = Some [CStr "y1"; CNum 0.5; CNum 0.25]
  ∧ column unit demo_data (build_params unit (λ _, nan) demo_data (demo_state unit)).2 0
    = Some [CStr "x"; CNum 1; CNum 2]
  ∧ Forall (λ l, l ∉ dom (heap (demo_state unit)))
      (chart_arrays (params_literal (names demo_data) 4 5 6 8 9 11)).
Proof.
  destruct (build_params_reads_only unit (λ _, nan) demo_data (demo_state unit))
    as (Hheap & Hcol & _ & Hnew).
  split; [|split].
  - apply Hheap. reflexivity.
  - apply Hcol. reflexivity.
  - apply Hnew. reflexivity.
Defined.

Lemma type_tags_allowed_witness :
  ∃ p σ',
    build_params unit (λ _, nan) demo_data (demo_state unit) = (Ok p, σ')
    ∧ coordType p = "date" ∧ coordType p ∈ coord_types
    ∧ valueType p = "number" ∧ valueType p ∈ value_types.
Proof.
  apply (type_tags_allowed unit (λ _, nan) demo_data (demo_state unit)
           [CStr "x"; CNum 1; CNum 2] [CStr "y0"; CNum 10; CNum 20]
           [CStr "y1"; CNum 0.5; CNum 0.25]); reflexivity.
Defined.

Lemma coords_equal_not_shared_witness :
  ∃ p σ',
    build_params unit (λ _, nan) demo_data (demo_state unit) = (Ok p, σ')
    ∧ length (dataSets p) = 3
    ∧ Forall (λ s, heap σ' !! coords s = Some [CNum 1; CNum 2]) (dataSets p)
    ∧ NoDup (coords <$> dataSets p)
    ∧ NoDup (chart_arrays p).
Proof.
  apply (coords_equal_not_shared unit (λ _, nan) demo_data (demo_state unit)
           [CStr "x"; CNum 1; CNum 2] [CStr "y0"; CNum 10; CNum 20]
           [CStr "y1"; CNum 0.5; CNum 0.25]); reflexivity.
Defined.

Lemma createMain_called_once_witness :
  ∃ p σ' s0 s1 s2,
    run unit tt (λ _, nan) (Decoded demo_doc) (start unit ∅) = (Ok tt, σ')
    ∧ calls σ' = [CallFetch unit "../../overview.json"; CallJson unit; CallCreateMain unit p tt]
    ∧ dataSets p = [s0; s1; s2]
    ∧ heap σ' !! values s0 = Some [CNum 10; CNum 20]
    ∧ heap σ' !! values s1 = Some [CNum 50; CNum 25]
    ∧ heap σ' !! values s2 = Some [CNum 500; CNum 250].
Proof.
  apply (createMain_called_once unit tt (λ _, nan) demo_doc (start unit ∅)
           [CStr "x"; CNum 1; CNum 2] [CStr "y0"; CNum 10; CNum 20]
           [CStr "y1"; CNum 0.5; CNum 0.25]); reflexivity.
Defined.

(** No [y1] among the names: the labels are built on the word undefined. *)
Example names_without_y1 :
  name <$> dataSets (params_literal {[ "y0" := "Joined" ]} 4 5 6 8 9 11) =
  [Some "Joined"; Some "undefined x 100"; Some "undefined x 1000"].
Proof. reflexivity. Qed.

Lemma short_document_throws_witness :
  ∃ σ',
    run unit tt (λ _, nan) (Decoded demo_short_doc) (demo_state unit)
      = (Throw (TypeError 2), σ')
    ∧ calls σ' = [CallFetch unit "../../overview.json"; CallJson unit]
    ∧ (∀ l arr, heap (demo_state unit) !! l = Some arr → heap σ' !! l = Some arr).
Proof.
  apply (short_document_throws unit tt (λ _, nan) demo_short_doc (demo_state unit)).
  simpl. lia.
Defined.

Lemma engine_called_iff_witness :
  created unit (run unit tt (λ _, nan) (Decoded demo_doc) (start unit ∅)).2 ≠ [].
Proof.
  apply (engine_called_iff unit tt (λ _, nan) (Decoded demo_doc) ∅).
  exists demo_doc. split; [reflexivity | simpl; lia].
Defined.

Lemma params_depend_only_on_samples_witness :
  created unit (run unit tt (λ _, nan) (Decoded demo_doc) (start unit ∅)).2
  = created unit (run unit tt (λ _, nan) (Decoded demo_doc_relabelled)
                    (start unit (heap (demo_state unit)))).2
  ∧ created unit (run unit tt (λ _, nan) (Decoded demo_doc) (start unit ∅)).2 ≠ [].
Proof.
  apply (params_depend_only_on_samples unit tt (λ _, nan) demo_doc demo_doc_relabelled
           ∅ (heap (demo_state unit))).
  - reflexivity.
  - reflexivity.
  - simpl. lia.
  - simpl. lia.
  - intros [|[|[|i]]] Hi; [reflexivity .. | lia].
Defined.

Lemma scaled_values_are_numbers_witness :
  ∃ p σ' s0 s1 s2 ys0 ys1 ys2,
    build_params unit (λ _, nan) demo_data (demo_state unit) = (Ok p, σ')
    ∧ dataSets p = [s0; s1; s2]
    ∧ heap σ' !! values s0 = Some ys0
    ∧ heap σ' !! values s1 = Some ys1
    ∧ heap σ' !! values s2 = Some ys2
    ∧ (∀ i, ys0 !! i = [CStr "y0"; CNum 10; CNum 20] !! S i)
    ∧ (∀ i, ys1 !! i = (λ v, CNum (to_number (λ _, nan) v * 100)%float)
                         <$> [CStr "y1"; CNum 0.5; CNum 0.25] !! S i)
    ∧ (∀ i, ys2 !! i = (λ v, CNum (to_number (λ _, nan) v * 1000)%float)
                         <$> [CStr "y1"; CNum 0.5; CNum 0.25] !! S i)
    ∧ Forall (λ c, is_number c = true) ys1
    ∧ Forall (λ c, is_number c = true) ys2.
Proof.
  apply (scaled_values_are_numbers unit (λ _, nan) demo_data (demo_state unit)
           [CStr "x"; CNum 1; CNum 2] [CStr "y0"; CNum 10; CNum 20]
           [CStr "y1"; CNum 0.5; CNum 0.25]); reflexivity.
Defined.

Lemma series_lengths_follow_columns_witness :
  ∃ p σ' s0 s1 s2,
    build_params unit (λ _, nan) demo_data (demo_state unit) = (Ok p, σ')
    ∧ dataSets p = [s0; s1; s2]
    ∧ Forall (λ s, array_length unit σ' (coords s) = Some 2) [s0; s1; s2]
    ∧ array_length unit σ' (values s0) = Some 2
    ∧ array_length unit σ' (values s1) = Some 2
    ∧ array_length unit σ' (values s2) = Some 2
    ∧ (series_invariant unit σ' s0 ↔ 2 = 2)
    ∧ (series_invariant unit σ' s1 ↔ 2 = 2)
    ∧ (series_invariant unit σ' s2 ↔ 2 = 2).
Proof.
  apply (series_lengths_follow_columns unit (λ _, nan) demo_data (demo_state unit)
           [CStr "x"; CNum 1; CNum 2] [CStr "y0"; CNum 10; CNum 20]
           [CStr "y1"; CNum 0.5; CNum 0.25]); reflexivity.
Defined.

Lemma series_names_witness :
  ∃ p σ' s0 s1 s2 n1 n2,
    build_params unit (λ _, nan) demo_data (demo_state unit) = (Ok p, σ')
    ∧ dataSets p = [s0; s1; s2]
    ∧ name s0 = Some "Joined"
    ∧ name s1 = Some n1 ∧ name s2 = Some n2
    ∧ n1 ≠ n2
    ∧ (names demo_data !! "y1" = None → n1 = "undefined x 100" ∧ n2 = "undefined x 1000")
    ∧ (∀ y, names demo_data !! "y1" = Some y → n1 = y +:+ " x 100" ∧ n2 = y +:+ " x 1000").
Proof.
  apply (series_names unit (λ _, nan) demo_data (demo_state unit)
           [CStr "x"; CNum 1; CNum 2] [CStr "y0"; CNum 10; CNum 20]
           [CStr "y1"; CNum 0.5; CNum 0.25]); reflexivity.
Defined.

(** * The engine's Scale: its properties *)

Module ScaleProps.
Import Scale.
Local Open Scope Q_scope.

Lemma minimum_const c v vs : v == c → Forall (λ x, x == c) vs → minimum v vs == c.
Proof.
  intros Hv. induction 1 as [|x vs Hx _ IH]; cbn; [done|].
  rewrite IH, Hx. apply Q.min_id.
Qed.

Lemma maximum_const c v vs : v == c → Forall (λ x, x == c) vs → maximum v vs == c.
Proof.
  intros Hv. induction 1 as [|x vs Hx _ IH]; cbn; [done|].
  rewrite IH, Hx. apply Q.max_id.
Qed.

Lemma widening_pos kind m : 0 < widening kind m.
Proof.
  destruct kind; cbn; [reflexivity|].
  destruct (Qeq_bool m 0) eqn:E; [reflexivity|].
  apply Qeq_bool_neq in E.
  apply Qlt_shift_div_l; [reflexivity|]. rewrite Qmult_0_l.
  destruct (Qle_lt_or_eq _ _ (Qabs_nonneg m)) as [H|H]; [done|].
  exfalso. apply E. symmetry in H. revert H. apply Qabs_case; intros; lra.
Qed.

Lemma all_equal_Forall c vs : all_equal c vs = true → Forall (λ x, x == c) vs.
Proof.
  induction vs as [|x vs IH]; cbn; [constructor|].
  intros [Hx Hvs]%andb_prop. constructor; [|by apply IH].
  symmetry. by apply Qeq_bool_eq.
Qed.

(** C6: a scale built from a degenerate domain (every input value equal
    to [c]) is built, with [domainMin < domainMax], the two bounds at the
    same distance from [c], and a span that is not zero. *)
Theorem build_degenerate_widens kind c v vs range :
  all_equal c (v :: vs) = true →
  ∃ s, build kind (v :: vs) range = inr s
       ∧ domainMin s < domainMax s
       ∧ c - domainMin s == domainMax s - c
       ∧ ¬ domainMax s - domainMin s == 0.
Proof.
  intros H%all_equal_Forall. inversion H as [|? ? Hv Hvs]; subst.
  pose proof (minimum_const c v vs Hv Hvs) as Hlo.
  pose proof (maximum_const c v vs Hv Hvs) as Hhi.
  assert (Qeq_bool (minimum v vs) (maximum v vs) = true) as E.
  { apply Qeq_bool_iff. by rewrite Hlo, Hhi. }
  cbn. rewrite E. eexists. split; [reflexivity|]. cbn.
  pose proof (widening_pos kind (minimum v vs)). split_and!; [lra | lra | intros ?; lra].
Qed.

Lemma build_degenerate_widens_witness :
  ∃ s, build Number [5; 5; 5] (0, 100) = inr s
       ∧ domainMin s < domainMax s
       ∧ 5 - domainMin s == domainMax s - 5
       ∧ ¬ domainMax s - domainMin s == 0.
Proof. apply (build_degenerate_widens Number 5 5 [5; 5] (0, 100)). reflexivity. Defined.

End ScaleProps.
